(** * streakr: the email-signup submission flow of [src/App.tsx]

    The landing page captures an email address through two forms (the hero
    form of [App] and the form of [ExitIntentPopup]).  Both use the hook
    [useEmailSignup], which calls [EmailService.submitEmail], which issues one
    [insert] on the table [email_signups] of the hosted database.

    The code is asynchronous: it runs up to the [await] of the insert, is
    suspended, and is resumed when the insert settles.  It is embedded as a
    small free monad [Proc] whose nodes are the synchronous effects of the
    code (state setters, console, clock and browser reads) and the one
    suspension point [Await]; [try]/[catch] is a combinator on it.  Two
    interpreters run it: [exec], against a persistence collaborator given as a
    function, and [run], which stops at the suspension and hands back the
    continuation, used by the event-driven model of a rendered form. *)

From Stdlib Require Import String List Bool ZArith Lia.
Import ListNotations.
Open Scope string_scope.

(* ================================================================= *)
(** ** Values *)

(** [metadata?: any]: the JavaScript values that can be stored there. *)
#[local] Set Warnings "-register-all".
Inductive JsValue : Type :=
| JUndefined
| JNull
| JBool (b : bool)
| JNumber (z : Z)
| JString (s : string)
| JObject (fields : list (string * JsValue)).
#[local] Set Warnings "register-all".

(** JavaScript truthiness, as used by [||]. *)
Definition truthy (v : JsValue) : bool :=
  match v with
  | JUndefined | JNull => false
  | JBool b => b
  | JNumber z => negb (z =? 0)%Z
  | JString s => negb (s =? "")
  | JObject _ => true
  end.

(** [v || d] on values. *)
Definition js_or (v d : JsValue) : JsValue := if truthy v then v else d.

(** [s || d] where [s] is an optional string ([undefined] and the empty
    string are falsy). *)
Definition str_or (s : option string) (d : string) : string :=
  match s with
  | Some x => if x =? "" then d else x
  | None => d
  end.

(** The structured error of the database client. *)
Module PostgrestError.
Record t : Type := mk { code : string; message : string }.
End PostgrestError.

(** The [{ error }] that the awaited insert resolves to: [null] or an error
    object. *)
Definition InsertResult : Type := option PostgrestError.t.

(** A promise settles by resolving to a value or by rejecting with a fault. *)
Inductive Awaited (A : Type) : Type :=
| Resolved (a : A)
| Rejected (fault : string).
Arguments Resolved {A} a.
Arguments Rejected {A} fault.

(** One row handed to [insert]. *)
Module Row.
Record t : Type := mk {
  email : string;
  source : string;
  metadata : JsValue;
  created_at : string
}.
End Row.

(** [supabase.from(table).insert(rows)]. *)
Record Request : Type := mkRequest { table : string; rows : list Row.t }.

(** The argument of [EmailService.submitEmail]. *)
Module EmailData.
Record t : Type := mk {
  email : string;
  source : string;
  metadata : JsValue
}.
End EmailData.

(** [{ success: boolean; error?: string }]. *)
Module SignupResult.
Record t : Type := mk { success : bool; error : option string }.
End SignupResult.

(** The three [useState] cells of [useEmailSignup]. *)
Module SignupState.
Record t : Type := mk {
  isLoading : bool;
  success : bool;
  error : option string
}.
End SignupState.

(* ================================================================= *)
(** ** The machine the code runs on *)

(** What the code reads from the browser.  [clock n] is the string returned by
    the [n]-th evaluation of [new Date().toISOString()]. *)
Record Browser : Type := mkBrowser {
  clock : nat -> string;
  userAgent : string;
  referrer : string
}.

Inductive ConsoleEntry : Type :=
| Log (msg : string)
| Error (msg detail : string).

(** The state of one mounted form component together with what it has done to
    the outside: the hook's cells, the component's [email] cell, the timer of
    the popup, the console, the requests sent so far. *)
Record Machine : Type := mkMachine {
  signup : SignupState.t;
  email : string;
  closeTimer : option Z;
  console : list ConsoleEntry;
  sent : list Request;
  dateReads : nat;
  browser : Browser
}.

Definition with_signup (f : SignupState.t -> SignupState.t) (m : Machine) : Machine :=
  mkMachine (f (signup m)) (email m) (closeTimer m) (console m) (sent m)
            (dateReads m) (browser m).

Definition with_email (s : string) (m : Machine) : Machine :=
  mkMachine (signup m) s (closeTimer m) (console m) (sent m) (dateReads m)
            (browser m).

Definition with_closeTimer (ms : Z) (m : Machine) : Machine :=
  mkMachine (signup m) (email m) (Some ms) (console m) (sent m) (dateReads m)
            (browser m).

Definition with_console (c : ConsoleEntry) (m : Machine) : Machine :=
  mkMachine (signup m) (email m) (closeTimer m) (console m ++ [c]) (sent m)
            (dateReads m) (browser m).

Definition with_dateRead (m : Machine) : Machine :=
  mkMachine (signup m) (email m) (closeTimer m) (console m) (sent m)
            (S (dateReads m)) (browser m).

Definition with_sent (r : Request) (m : Machine) : Machine :=
  mkMachine (signup m) (email m) (closeTimer m) (console m) (sent m ++ [r])
            (dateReads m) (browser m).

(* ================================================================= *)
(** ** Effects and asynchronous procedures *)

(** The synchronous effects of the code, indexed by the type of their
    result. *)
Inductive Eff : Type -> Type :=
| ConsoleLog (msg : string) : Eff unit
| ConsoleError (msg detail : string) : Eff unit
| NewDateToISOString : Eff string
| NavigatorUserAgent : Eff string
| DocumentReferrer : Eff string
| SetIsLoading (b : bool) : Eff unit
| SetSuccess (b : bool) : Eff unit
| SetError (e : option string) : Eff unit
| SetEmail (s : string) : Eff unit
| SetTimeoutOnClose (ms : Z) : Eff unit.

(** An [async] function body: it returns, throws, performs an effect and goes
    on, or awaits the insert and goes on with what the promise settled to. *)
Inductive Proc (A : Type) : Type :=
| Ret (a : A)
| Throw (fault : string)
| Vis {X : Type} (e : Eff X) (k : X -> Proc A)
| Await (r : Request) (k : Awaited InsertResult -> Proc A).
Arguments Ret {A} a.
Arguments Throw {A} fault.
Arguments Vis {A X} e k.
Arguments Await {A} r k.

Fixpoint bind {A B : Type} (p : Proc A) (f : A -> Proc B) : Proc B :=
  match p with
  | Ret a => f a
  | Throw x => Throw x
  | Vis e k => Vis e (fun x => bind (k x) f)
  | Await r k => Await r (fun o => bind (k o) f)
  end.

(** [try { p } catch (error) { h error }]. *)
Fixpoint try_catch {A : Type} (p : Proc A) (h : string -> Proc A) : Proc A :=
  match p with
  | Ret a => Ret a
  | Throw x => h x
  | Vis e k => Vis e (fun x => try_catch (k x) h)
  | Await r k => Await r (fun o => try_catch (k o) h)
  end.

Declare Scope proc_scope.
Delimit Scope proc_scope with proc.
Notation "x <- p ;; q" := (bind p (fun x => q))
  (at level 61, p at next level, right associativity) : proc_scope.
Notation "p ;; q" := (bind p (fun _ => q))
  (at level 61, right associativity) : proc_scope.
Open Scope proc_scope.

Definition console_log (msg : string) : Proc unit := Vis (ConsoleLog msg) Ret.
Definition console_error (msg detail : string) : Proc unit :=
  Vis (ConsoleError msg detail) Ret.
Definition new_Date_toISOString : Proc string := Vis NewDateToISOString Ret.
Definition navigator_userAgent : Proc string := Vis NavigatorUserAgent Ret.
Definition document_referrer : Proc string := Vis DocumentReferrer Ret.
Definition setIsLoading (b : bool) : Proc unit := Vis (SetIsLoading b) Ret.
Definition setSuccess (b : bool) : Proc unit := Vis (SetSuccess b) Ret.
Definition setError (e : option string) : Proc unit := Vis (SetError e) Ret.
Definition setEmail (s : string) : Proc unit := Vis (SetEmail s) Ret.
Definition setTimeout_onClose (ms : Z) : Proc unit := Vis (SetTimeoutOnClose ms) Ret.

(** [await supabase.from(table).insert(rows)]: a rejected promise is thrown at
    the [await]. *)
Definition await_insert (tbl : string) (rws : list Row.t) : Proc InsertResult :=
  Await (mkRequest tbl rws)
        (fun o => match o with
                  | Resolved r => Ret r
                  | Rejected fault => Throw fault
                  end).

(** What a synchronous effect does to the machine. *)
Definition perform {X : Type} (e : Eff X) (m : Machine) : X * Machine :=
  match e in Eff T return T * Machine with
  | ConsoleLog msg => (tt, with_console (Log msg) m)
  | ConsoleError msg detail => (tt, with_console (Error msg detail) m)
  | NewDateToISOString => (clock (browser m) (dateReads m), with_dateRead m)
  | NavigatorUserAgent => (userAgent (browser m), m)
  | DocumentReferrer => (referrer (browser m), m)
  | SetIsLoading b =>
      (tt, with_signup (fun s => SignupState.mk b (SignupState.success s)
                                                (SignupState.error s)) m)
  | SetSuccess b =>
      (tt, with_signup (fun s => SignupState.mk (SignupState.isLoading s) b
                                                (SignupState.error s)) m)
  | SetError e =>
      (tt, with_signup (fun s => SignupState.mk (SignupState.isLoading s)
                                                (SignupState.success s) e) m)
  | SetEmail s => (tt, with_email s m)
  | SetTimeoutOnClose ms => (tt, with_closeTimer ms m)
  end.

(** How a run ends. *)
Inductive Completion (A : Type) : Type :=
| Returned (a : A)
| Thrown (fault : string).
Arguments Returned {A} a.
Arguments Thrown {A} fault.

(** [exec insert p m]: run [p] to its end against a persistence collaborator
    that settles each request [r] as [insert r]. *)
Fixpoint exec {A : Type} (insert : Request -> Awaited InsertResult)
         (p : Proc A) (m : Machine) : Completion A * Machine :=
  match p with
  | Ret a => (Returned a, m)
  | Throw x => (Thrown x, m)
  | Vis e k => let xm := perform e m in exec insert (k (fst xm)) (snd xm)
  | Await r k => exec insert (k (insert r)) (with_sent r m)
  end.

(** How the synchronous part of a run ends: completed, or suspended at the
    [await] with the continuation that the settled promise resumes. *)
Inductive Suspension (A : Type) : Type :=
| Completed (c : Completion A)
| Awaiting (k : Awaited InsertResult -> Proc A).
Arguments Completed {A} c.
Arguments Awaiting {A} k.

(** [run p m]: run [p] up to its first [await]; the request is sent. *)
Fixpoint run {A : Type} (p : Proc A) (m : Machine) : Suspension A * Machine :=
  match p with
  | Ret a => (Completed (Returned a), m)
  | Throw x => (Completed (Thrown x), m)
  | Vis e k => let xm := perform e m in run (k (fst xm)) (snd xm)
  | Await r k => (Awaiting k, with_sent r m)
  end.

(* ================================================================= *)
(** ** [class EmailService] *)

Module EmailService.

(** [static async submitEmail(emailData)]. *)
Definition submitEmail (emailData : EmailData.t) : Proc SignupResult.t :=
  try_catch
    (console_log "Submitting email to Supabase:" ;;
     created_at <- new_Date_toISOString ;;
     error <- await_insert "email_signups"
                [ Row.mk (EmailData.email emailData)
                         (EmailData.source emailData)
                         (js_or (EmailData.metadata emailData) (JObject []))
                         created_at ] ;;
     match error with
     | Some error =>
         console_error "Supabase error:" (PostgrestError.message error) ;;
         if PostgrestError.code error =? "23505"
         then Ret (SignupResult.mk false (Some "Email already registered!"))
         else Ret (SignupResult.mk false (Some (PostgrestError.message error)))
     | None =>
         console_log "Email submitted successfully" ;;
         Ret (SignupResult.mk true None)
     end)
    (fun error =>
       console_error "Email submission error:" error ;;
       Ret (SignupResult.mk false
              (Some "Failed to submit email. Please try again."))).

End EmailService.

(* ================================================================= *)
(** ** [useEmailSignup] *)

Module useEmailSignup.

(** [useState(false)], [useState(false)], [useState(null)]. *)
Definition initial : SignupState.t := SignupState.mk false false None.

(** [submitEmail(email, source = 'hero')]: an absent [source] is [None]. *)
Definition submitEmail (email : string) (source : option string)
  : Proc SignupResult.t :=
  let source := match source with Some s => s | None => "hero" end in
  setIsLoading true ;;
  setError None ;;
  timestamp <- new_Date_toISOString ;;
  user_agent <- navigator_userAgent ;;
  referrer <- document_referrer ;;
  result <- EmailService.submitEmail
              (EmailData.mk email source
                 (JObject
                    [ ("tier", JString "founding_streaker");
                      ("benefits",
                       JObject [ ("premium_months_free", JNumber 3);
                                 ("badge", JString "founding_streaker");
                                 ("early_access", JBool true) ]);
                      ("timestamp", JString timestamp);
                      ("user_agent", JString user_agent);
                      ("referrer", JString referrer) ])) ;;
  setIsLoading false ;;
  (if SignupResult.success result
   then setSuccess true
   else setError (Some (str_or (SignupResult.error result)
                               "Something went wrong"))) ;;
  Ret result.

Definition resetState : Proc unit :=
  setSuccess false ;;
  setError None.

End useEmailSignup.

(* ================================================================= *)
(** ** The two form components *)

(** The hero form of [App] and the form of [ExitIntentPopup]: each has its own
    [useEmailSignup] and its own [email] cell.  Closing the popup unmounts it
    and ends the life of its holder; the model follows a form while it is
    mounted. *)
Inductive Surface : Type := HeroForm | ExitIntentForm.

(** [handleHeroSubmit] of [App].  The callback closes over the [email] and the
    [success] of the render that created it, so both are arguments; the
    [success] tested after the [await] is that captured value. *)
Definition handleHeroSubmit (email : string) (success : bool) : Proc unit :=
  useEmailSignup.submitEmail email (Some "hero_form") ;;
  if success then setEmail "" else Ret tt.

(** [handleSubmit] of [ExitIntentPopup]. *)
Definition handleSubmit (email : string) (success : bool) : Proc unit :=
  useEmailSignup.submitEmail email (Some "exit_intent") ;;
  if success then setTimeout_onClose 3000 else Ret tt.

(** [handleNewSignup] of [App]. *)
Definition handleNewSignup : Proc unit :=
  useEmailSignup.resetState ;;
  setEmail "".

(** A mounted form: its machine and the continuations of the submissions that
    are awaiting the collaborator. *)
Record Page : Type := mkPage {
  machine : Machine;
  pending : list (Awaited InsertResult -> Proc unit)
}.

(** What the user and the network can do to a mounted form. *)
Inductive Event : Type :=
| TypeEmail (s : string)                        (* [onChange] of the input *)
| SubmitForm                                    (* click on the submit button, or Enter *)
| ClickNewSignup                                (* "Sign up another email" *)
| Settle (i : nat) (o : Awaited InsertResult).  (* the [i]-th awaited insert settles *)

(** [{success ? <panel/> : <form/>}]: the form, with its input and its submit
    button, is rendered only while [success] is false. *)
Definition formRendered (m : Machine) : bool :=
  negb (SignupState.success (signup m)).

(** [disabled={isLoading || !email}] on the submit button.  A disabled submit
    button submits nothing: neither a click nor Enter in the input fires
    [onSubmit]. *)
Definition submitDisabled (m : Machine) : bool :=
  SignupState.isLoading (signup m) || (email m =? "").

(** The "Sign up another email" button is part of the success panel of the
    hero section only. *)
Definition newSignupRendered (sf : Surface) (m : Machine) : bool :=
  match sf with
  | HeroForm => SignupState.success (signup m)
  | ExitIntentForm => false
  end.

(** The submit handler of the current render. *)
Definition onSubmit (sf : Surface) (m : Machine) : Proc unit :=
  match sf with
  | HeroForm => handleHeroSubmit (email m) (SignupState.success (signup m))
  | ExitIntentForm => handleSubmit (email m) (SignupState.success (signup m))
  end.

(** Run a handler, or the continuation of one, up to its next suspension. *)
Definition dispatch (p : Proc unit) (m : Machine)
           (waiting : list (Awaited InsertResult -> Proc unit)) : Page :=
  match run p m with
  | (Completed _, m') => mkPage m' waiting
  | (Awaiting k, m') => mkPage m' (waiting ++ [k])
  end.

Fixpoint remove_nth {A : Type} (i : nat) (l : list A) : list A :=
  match i, l with
  | _, [] => []
  | O, _ :: t => t
  | S j, h :: t => h :: remove_nth j t
  end.

(** One event of the event loop, handled against the render of the current
    state: an event reaches a handler only if the element that carries the
    handler is rendered and enabled. *)
Definition step (sf : Surface) (p : Page) (ev : Event) : Page :=
  let m := machine p in
  match ev with
  | TypeEmail s =>
      if formRendered m then mkPage (with_email s m) (pending p) else p
  | SubmitForm =>
      if formRendered m && negb (submitDisabled m)
      then dispatch (onSubmit sf m) m (pending p)
      else p
  | ClickNewSignup =>
      if newSignupRendered sf m
      then dispatch handleNewSignup m (pending p)
      else p
  | Settle i o =>
      match nth_error (pending p) i with
      | Some k => dispatch (k o) m (remove_nth i (pending p))
      | None => p
      end
  end.

(** The freshly mounted form. *)
Definition mount (b : Browser) : Page :=
  mkPage (mkMachine useEmailSignup.initial "" None [] [] 0 b) [].

(** The states a mounted form can be in. *)
Inductive reachable (sf : Surface) : Page -> Prop :=
| reachable_mount (b : Browser) : reachable sf (mount b)
| reachable_step (p : Page) (ev : Event) :
    reachable sf p -> reachable sf (step sf p ev).

Definition play (sf : Surface) (p : Page) (evs : list Event) : Page :=
  fold_left (step sf) evs p.

(* ================================================================= *)
(** ** The state machine of the specification *)

(** Modelled from the spec: the states [Idle], [Submitting], [Succeeded] and
    [Failed(message)] of section 4.1, which the source does not declare; the
    source keeps the three cells of [SignupState.t]. *)
Inductive Phase : Type :=
| Idle
| Submitting
| Succeeded
| Failed (message : string).

(** Modelled from the spec: the state that a combination of the three cells
    stands for, when it stands for one; the source has no such function. *)
Definition phase (s : SignupState.t) : option Phase :=
  match SignupState.isLoading s, SignupState.success s, SignupState.error s with
  | false, false, None => Some Idle
  | true, false, None => Some Submitting
  | false, true, None => Some Succeeded
  | false, false, Some msg => Some (Failed msg)
  | _, _, _ => None
  end.

(** A collaborator that settles every insert as [o]. *)
Definition answers (o : Awaited InsertResult) : Request -> Awaited InsertResult :=
  fun _ => o.

(** The metadata object that [useEmailSignup.submitEmail] builds. *)
Definition founding_metadata (timestamp user_agent referrer : string) : JsValue :=
  JObject
    [ ("tier", JString "founding_streaker");
      ("benefits",
       JObject [ ("premium_months_free", JNumber 3);
                 ("badge", JString "founding_streaker");
                 ("early_access", JBool true) ]);
      ("timestamp", JString timestamp);
      ("user_agent", JString user_agent);
      ("referrer", JString referrer) ].

(** A browser to evaluate the code in. *)
Definition sample_browser : Browser :=
  mkBrowser (fun n => match n with
                      | 0 => "2024-05-01T10:00:00.000Z"
                      | _ => "2024-05-01T10:00:00.001Z"
                      end)
            "Mozilla/5.0" "https://example.com/".

(** A browser whose clock is wrong. *)
Definition skewed_browser : Browser :=
  mkBrowser (fun _ => "1999-12-31T23:59:59.000Z")
            "Mozilla/5.0" "https://example.com/".

(** The machine of a freshly mounted form in that browser. *)
Definition mounted_machine : Machine := machine (mount sample_browser).

(** Errors a collaborator can answer with. *)
Definition unique_violation : PostgrestError.t :=
  PostgrestError.mk "23505" "duplicate key value violates unique constraint".

Definition permission_denied : PostgrestError.t :=
  PostgrestError.mk "42501" "permission denied for table email_signups".

Definition silent_error : PostgrestError.t := PostgrestError.mk "42501" "".

Definition sample_emailData : EmailData.t :=
  EmailData.mk "new@example.com" "hero_form" JUndefined.

(** A holder that is [Failed]. *)
Definition failed_machine : Machine :=
  with_signup (fun _ => SignupState.mk false false (Some "Email already registered!"))
              mounted_machine.

(* ================================================================= *)
(** ** The invariant of a mounted form *)

(** A continuation that, however the insert settles, runs to its end without
    awaiting or sending anything, clears the loading flag, and either sets
    [success] or stores a message. *)
Definition settles (k : Awaited InsertResult -> Proc unit) : Prop :=
  forall (o : Awaited InsertResult) (m : Machine),
  exists m' : Machine,
    run (k o) m = (Completed (Returned tt), m') /\
    sent m' = sent m /\
    (signup m' = SignupState.mk false true (SignupState.error (signup m)) \/
     exists msg : string,
       signup m' = SignupState.mk false (SignupState.success (signup m)) (Some msg)).

(** The invariant of a mounted form: nothing is awaited and the holder is
    [Idle], [Succeeded] or [Failed]; or one submission is awaited and the
    holder is [Submitting]. *)
Definition consistent (p : Page) : Prop :=
  match pending p with
  | [] =>
      SignupState.isLoading (signup (machine p)) = false /\
      (SignupState.success (signup (machine p)) = true ->
       SignupState.error (signup (machine p)) = None)
  | [k] =>
      signup (machine p) = SignupState.mk true false None /\ settles k
  | _ :: _ :: _ => False
  end.

(** Events that do not reset. *)
Definition idle_events : list Event :=
  [SubmitForm; TypeEmail "other@example.com"; Settle 0 (Rejected "late"); SubmitForm].

(** A page on which a submission is awaited, and one on which it has
    succeeded. *)
Definition submitting_page : Page :=
  play HeroForm (mount sample_browser) [TypeEmail "new@example.com"; SubmitForm].

Definition succeeded_page : Page :=
  play HeroForm submitting_page [Settle 0 (Resolved None)].

(* ================================================================= *)
(** ** What a form sends, and what its handlers leave alone *)

(** The [source] tag of each form. *)
Definition form_tag (sf : Surface) : string :=
  match sf with
  | HeroForm => "hero_form"
  | ExitIntentForm => "exit_intent"
  end.

(** A request as the form [sf] sends them: one row into [email_signups], with
    the tag of the form and an email that is not empty. *)
Definition well_tagged (sf : Surface) (r : Request) : Prop :=
  table r = "email_signups" /\
  exists (address : string) (metadata : JsValue) (created_at : string),
    rows r = [Row.mk address (form_tag sf) metadata created_at] /\
    address <> "".

(** A continuation that the submit handler of the form [sf] left behind, in a
    render in which [success] was false. *)
Definition issued (sf : Surface) (k : Awaited InsertResult -> Proc unit) : Prop :=
  exists m0 : Machine,
    SignupState.success (signup m0) = false /\
    fst (run (onSubmit sf m0) m0) = Awaiting k.

(** The request that a submit of the form [sf] sends from the machine [m]. *)
Definition form_request (sf : Surface) (m : Machine) : Request :=
  mkRequest "email_signups"
    [ Row.mk (email m) (form_tag sf)
             (founding_metadata (clock (browser m) (dateReads m))
                                (userAgent (browser m))
                                (referrer (browser m)))
             (clock (browser m) (S (dateReads m))) ].

(** What a mounted form keeps besides [consistent]: the close timer is never
    set, what is awaited was left by the form's submit handler, and every
    request sent is one of the form's. *)
Definition sound (sf : Surface) (p : Page) : Prop :=
  consistent p /\
  closeTimer (machine p) = None /\
  Forall (issued sf) (pending p) /\
  Forall (well_tagged sf) (sent (machine p)).

(** The state of the holder after the awaited insert has settled as [o]. *)
Definition outcome_phase (o : Awaited InsertResult) : Phase :=
  match o with
  | Resolved None => Succeeded
  | Resolved (Some e) =>
      Failed (if PostgrestError.code e =? "23505"
              then "Email already registered!"
              else if PostgrestError.message e =? ""
                   then "Something went wrong"
                   else PostgrestError.message e)
  | Rejected _ => Failed "Failed to submit email. Please try again."
  end.

(** The number of submits of the form in a sequence of events. *)
Definition submits (evs : list Event) : nat :=
  List.length (filter (fun ev => match ev with SubmitForm => true | _ => false end) evs).

(* ================================================================= *)
(** ** [InteractiveHabitDemo] *)

(** One entry of the [habits] cell.  The numbers of the demo are integers. *)
Module Habit.
Record t : Type := mk {
  id : Z;
  name : string;
  completed : bool;
  streak : Z;
  icon : string
}.
End Habit.

(** The argument of [useState]. *)
Definition initialHabits : list Habit.t :=
  [ Habit.mk 1 "Morning Run" false 7 "üèÉ";
    Habit.mk 2 "Read 30min" true 12 "üìö";
    Habit.mk 3 "Meditate" false 3 "üßò";
    Habit.mk 4 "Drink Water" true 5 "üíß" ].

(** The updater that [toggleHabit(id)] hands to [setHabits]. *)
Definition toggleHabit (id : Z) (prev : list Habit.t) : list Habit.t :=
  map (fun habit =>
         if (Habit.id habit =? id)%Z
         then Habit.mk (Habit.id habit) (Habit.name habit)
                       (negb (Habit.completed habit))
                       (if negb (Habit.completed habit)
                        then (Habit.streak habit + 1)%Z
                        else Z.max 0 (Habit.streak habit - 1))
                       (Habit.icon habit)
         else habit)
      prev.

(** [habits.filter(h => h.completed).length]. *)
Definition completedCount (habits : list Habit.t) : nat :=
  List.length (filter Habit.completed habits).

(** [habits.reduce((sum, h) => sum + h.streak, 0)]. *)
Definition totalStreak (habits : list Habit.t) : Z :=
  fold_left (fun sum h => (sum + Habit.streak h)%Z) habits 0%Z.

(** The habits after a sequence of clicks, each on the habit of an id. *)
Definition clicks (ids : list Z) (habits : list Habit.t) : list Habit.t :=
  fold_left (fun hs id => toggleHabit id hs) ids habits.

(** What the demo keeps: no streak is negative, and a completed habit has a
    streak of at least one day. *)
Definition sane (h : Habit.t) : Prop :=
  (0 <= Habit.streak h)%Z /\
  (Habit.completed h = true -> 1 <= Habit.streak h)%Z.

(** A completed habit with no streak, which the demo never shows. *)
Definition hollow_habit : Habit.t := Habit.mk 9 "Stretch" true 0 "".

(** [Number.MAX_SAFE_INTEGER], 2^53 - 1: between its opposite and it, and one
    step beyond, the additions and subtractions of whole numbers that the
    source makes on its numbers are exact. *)
Definition MAX_SAFE_INTEGER : Z := 9007199254740991.

(** A list of habits on which the arithmetic of the demo is exact: the habits
    are sane, and the total of the streaks, raised by one for every habit,
    stays a safe integer. *)
Definition exact_habits (hs : list Habit.t) : Prop :=
  Forall sane hs /\
  (totalStreak hs + Z.of_nat (List.length hs) <= MAX_SAFE_INTEGER)%Z.

(** The second habit of the demo, "Read 30min". *)
Definition reading : Habit.t := nth 1 initialHabits hollow_habit.

(* ================================================================= *)
(** ** [ActivityHeatmap] *)

(** The palette of [getLevelColor]. *)
Definition colors : list string :=
  ["#1e293b"; "#0f766e"; "#059669"; "#10b981"; "#34d399"].

(** [l[i]] for an integer [i]: [undefined] outside the array. *)
Definition at_index (l : list string) (i : Z) : option string :=
  if (i <? 0)%Z then None else nth_error l (Z.to_nat i).

(** [getLevelColor(level)], for the integer levels that its callers pass
    ([Math.floor] of a number, and the literals 0 to 4). *)
Definition getLevelColor (level : Z) : string :=
  str_or (at_index colors level) (nth 0 colors "").

(* ================================================================= *)
(** ** [SignupCounter] *)

(** The two [useState] cells of the counter. *)
Record Counter : Type := mkCounter {
  foundingMembers : Z;
  totalSignups : Z
}.

(** [useState(247)], [useState(1247)]. *)
Definition counter_mount : Counter := mkCounter 247 1247.

(** What one run of the interval callback draws: whether
    [Math.random() > 0.7], and the [Math.floor(Math.random() * 3)] of the
    second updater, a whole number that is never negative because
    [Math.random()] is not. *)
Record Draw : Type := mkDraw { fires : bool; extra : nat }.

(** The callback of [setInterval]. *)
Definition interval_tick (c : Counter) (d : Draw) : Counter :=
  if fires d
  then mkCounter (Z.min (foundingMembers c + 1) 500)
                 (totalSignups c + Z.of_nat (extra d) + 1)%Z
  else c.

Definition ticks (ds : list Draw) (c : Counter) : Counter :=
  fold_left interval_tick ds c.

(** The number of draws that fire. *)
Definition fired (ds : list Draw) : nat :=
  List.length (filter fires ds).

(** What the draws that fire add to the total: [extra + 1] each. *)
Definition raised (ds : list Draw) : Z :=
  fold_right (fun d acc => if fires d then (Z.of_nat (extra d) + 1 + acc)%Z else acc)
             0%Z ds.

(** Draws to evaluate the counter on. *)
Definition sample_draws : list Draw :=
  [mkDraw true 2; mkDraw false 0; mkDraw true 0].

(* ================================================================= *)
(** ** The exit-intent popup of [App] *)

(** The cells [showExitPopup] and [hasSeenExitPopup] of [App]. *)
Record ExitIntent : Type := mkExitIntent {
  showExitPopup : bool;
  hasSeenExitPopup : bool
}.

(** [useState(false)], [useState(false)]. *)
Definition exit_mount : ExitIntent := mkExitIntent false false.

(** [handleMouseLeave(e)], registered by the effect of the render whose
    [hasSeenExitPopup] and [success] it closes over; [success] is the flag of
    the hero form's holder. *)
Definition handleMouseLeave (clientY : Z) (success : bool) (st : ExitIntent)
  : ExitIntent :=
  if (clientY <=? 0)%Z && negb (hasSeenExitPopup st) && negb success
  then mkExitIntent true true
  else st.

(** [onClose] of the popup: [() => setShowExitPopup(false)]. *)
Definition onClose (st : ExitIntent) : ExitIntent :=
  mkExitIntent false (hasSeenExitPopup st).

Inductive ExitEvent : Type :=
| MouseLeave (clientY : Z) (success : bool)
| ClosePopup.

(** One event, handled by the listener of the current render. *)
Definition exit_step (st : ExitIntent) (ev : ExitEvent) : ExitIntent :=
  match ev with
  | MouseLeave clientY success => handleMouseLeave clientY success st
  | ClosePopup => onClose st
  end.

Definition exit_play (evs : list ExitEvent) (st : ExitIntent) : ExitIntent :=
  fold_left exit_step evs st.

(* ================================================================= *)
(** ** Running the code *)

Example hero_double_click :
  List.length (sent (machine (play HeroForm submitting_page [SubmitForm]))) = 1 /\
  List.length (pending (play HeroForm submitting_page [SubmitForm])) = 1.
Proof. split; reflexivity. Qed.

(** The scenario of the specification: a first signup succeeds, the same
    email submitted again is reported as registered. *)
Example hero_signup_then_duplicate :
  signup (machine
            (play HeroForm succeeded_page
                  [ ClickNewSignup; TypeEmail "new@example.com"; SubmitForm;
                    Settle 0 (Resolved (Some unique_violation)) ]))
  = SignupState.mk false false (Some "Email already registered!").
Proof. reflexivity. Qed.

(** [handleHeroSubmit] tests the [success] of the render that created it,
    which is false whenever the form can be submitted: the email typed is
    still there after a successful submission. *)
Example hero_success_keeps_email :
  email (machine succeeded_page) = "new@example.com".
Proof. reflexivity. Qed.

(** Whatever the collaborator does, the service returns a result. *)
Lemma service_returns insert emailData m :
  exists r m',
    exec insert (EmailService.submitEmail emailData) m = (Returned r, m').
Proof.
  cbn. destruct (insert _) as [[e|]|fault]; cbn.
  - destruct (PostgrestError.code e =? "23505"); cbn; eauto.
  - eauto.
  - eauto.
Qed.

(** Every call of the hook's [submitEmail] sends one request, whether or not
    the loading flag is already set: the function itself has no gate. *)
Lemma submitEmail_sends insert email source m :
  sent (snd (exec insert (useEmailSignup.submitEmail email (Some source)) m)) =
  (sent m ++
   [ mkRequest "email_signups"
       [ Row.mk email source
                (founding_metadata (clock (browser m) (dateReads m))
                                   (userAgent (browser m))
                                   (referrer (browser m)))
                (clock (browser m) (S (dateReads m))) ] ])%list.
Proof.
  cbn. destruct (insert _) as [[e|]|fault]; cbn.
  - destruct (PostgrestError.code e =? "23505"); reflexivity.
  - reflexivity.
  - reflexivity.
Qed.

(* ================================================================= *)
(** ** The service and the hook *)

(** C1.  When the collaborator answers the insert with a structured error
    whose code is the unique-violation code ['23505'],
    [EmailService.submitEmail] returns
    [{success: false, error: "Email already registered!"}], the hook returns
    the same, and the state holder (which every submission of the page enters
    with [success] false) becomes [Failed] with exactly that message. *)
Theorem duplicate_email_is_reported
        (e : PostgrestError.t) (emailData : EmailData.t)
        (email : string) (source : option string) (m : Machine)
        (Hcode : PostgrestError.code e = "23505")
        (Hfresh : SignupState.success (signup m) = false) :
  fst (exec (answers (Resolved (Some e))) (EmailService.submitEmail emailData) m)
  = Returned (SignupResult.mk false (Some "Email already registered!"))
  /\
  fst (exec (answers (Resolved (Some e)))
            (useEmailSignup.submitEmail email source) m)
  = Returned (SignupResult.mk false (Some "Email already registered!"))
  /\
  phase (signup (snd (exec (answers (Resolved (Some e)))
                           (useEmailSignup.submitEmail email source) m)))
  = Some (Failed "Email already registered!").
Proof.
  cbn. rewrite Hcode. cbn. rewrite Hfresh. repeat split.
Qed.

Lemma duplicate_email_is_reported_witness :
  PostgrestError.code unique_violation = "23505" /\
  SignupState.success (signup mounted_machine) = false /\
  fst (exec (answers (Resolved (Some unique_violation)))
            (EmailService.submitEmail sample_emailData) mounted_machine)
  = Returned (SignupResult.mk false (Some "Email already registered!"))
  /\
  fst (exec (answers (Resolved (Some unique_violation)))
            (useEmailSignup.submitEmail "new@example.com" (Some "hero_form"))
            mounted_machine)
  = Returned (SignupResult.mk false (Some "Email already registered!"))
  /\
  phase (signup (snd (exec (answers (Resolved (Some unique_violation)))
                           (useEmailSignup.submitEmail "new@example.com"
                                                       (Some "hero_form"))
                           mounted_machine)))
  = Some (Failed "Email already registered!").
Proof.
  split; [reflexivity|]. split; [reflexivity|].
  apply (duplicate_email_is_reported
           unique_violation sample_emailData "new@example.com"
           (Some "hero_form") mounted_machine);
    reflexivity.
Defined.

(** C2, as the code has it.  A call [submitEmail(email, source)] of the hook
    with a non-empty email and a non-empty source issues exactly one
    create-row request: the log of requests grows by one insert into
    [email_signups] of one row, which holds the given email, the given source,
    the metadata object (tier, benefits, submission timestamp, user agent,
    referrer) and a [created_at] that the client sets itself: the reading of
    the browser's clock taken when the row is built. *)
Theorem submit_issues_exactly_one_insert
        (insert : Request -> Awaited InsertResult)
        (email source : string) (m : Machine)
        (Hemail : email <> "") (Hsource : source <> "") :
  sent (snd (exec insert (useEmailSignup.submitEmail email (Some source)) m)) =
  (sent m ++
  [ mkRequest "email_signups"
      [ Row.mk email source
               (JObject
                  [ ("tier", JString "founding_streaker");
                    ("benefits",
                     JObject [ ("premium_months_free", JNumber 3);
                               ("badge", JString "founding_streaker");
                               ("early_access", JBool true) ]);
                    ("timestamp", JString (clock (browser m) (dateReads m)));
                    ("user_agent", JString (userAgent (browser m)));
                    ("referrer", JString (referrer (browser m))) ])
               (clock (browser m) (S (dateReads m))) ] ])%list.
Proof.
  apply submitEmail_sends.
Qed.

Lemma submit_issues_exactly_one_insert_witness :
  "new@example.com" <> "" /\ "hero_form" <> "" /\
  sent (snd (exec (answers (Resolved None))
                  (useEmailSignup.submitEmail "new@example.com" (Some "hero_form"))
                  mounted_machine)) =
  [ mkRequest "email_signups"
      [ Row.mk "new@example.com" "hero_form"
               (founding_metadata "2024-05-01T10:00:00.000Z" "Mozilla/5.0"
                                  "https://example.com/")
               "2024-05-01T10:00:00.001Z" ] ].
Proof.
  split; [discriminate|]. split; [discriminate|].
  apply (submit_issues_exactly_one_insert
           (answers (Resolved None)) "new@example.com" "hero_form"
           mounted_machine); discriminate.
Defined.

(** C2 as stated fails: the creation timestamp is not set by the server.  The
    request that leaves the browser already carries [created_at], and it is
    whatever the clock of that browser says: the same call against the same
    collaborator sends another [created_at] from a browser whose clock is
    wrong. *)
Lemma created_at_is_the_clients_clock :
  sent (snd (exec (answers (Resolved None))
                  (useEmailSignup.submitEmail "new@example.com" (Some "hero_form"))
                  (machine (mount skewed_browser))))
  = [ mkRequest "email_signups"
        [ Row.mk "new@example.com" "hero_form"
                 (founding_metadata "1999-12-31T23:59:59.000Z" "Mozilla/5.0"
                                    "https://example.com/")
                 "1999-12-31T23:59:59.000Z" ] ] /\
  sent (snd (exec (answers (Resolved None))
                  (useEmailSignup.submitEmail "new@example.com" (Some "hero_form"))
                  (machine (mount sample_browser))))
  = [ mkRequest "email_signups"
        [ Row.mk "new@example.com" "hero_form"
                 (founding_metadata "2024-05-01T10:00:00.000Z" "Mozilla/5.0"
                                    "https://example.com/")
                 "2024-05-01T10:00:00.001Z" ] ] /\
  sent (snd (exec (answers (Resolved None))
                  (useEmailSignup.submitEmail "new@example.com" (Some "hero_form"))
                  (machine (mount skewed_browser))))
  <> sent (snd (exec (answers (Resolved None))
                     (useEmailSignup.submitEmail "new@example.com" (Some "hero_form"))
                     (machine (mount sample_browser)))).
Proof.
  split; [reflexivity|]. split; [reflexivity|]. cbn. discriminate.
Qed.

(** C3.  When the awaited insert rejects with a fault,
    [EmailService.submitEmail] returns
    [{success: false, error: "Failed to submit email. Please try again."}]:
    the result is the same for every fault text, which goes to the console
    only. *)
Theorem unexpected_fault_is_generic
        (fault : string) (emailData : EmailData.t) (m : Machine) :
  fst (exec (answers (Rejected fault)) (EmailService.submitEmail emailData) m)
  = Returned (SignupResult.mk false
                (Some "Failed to submit email. Please try again."))
  /\
  console (snd (exec (answers (Rejected fault))
                     (EmailService.submitEmail emailData) m))
  = (console m ++ [ Log "Submitting email to Supabase:";
                    Error "Email submission error:" fault ])%list.
Proof.
  cbn. split; [reflexivity|]. now rewrite <- app_assoc.
Qed.

(** C4, as the code has it.  When the collaborator answers with a structured
    error whose code is not ['23505'], [EmailService.submitEmail] returns
    [{success: false, error}] with the collaborator's message verbatim, and the
    hook returns the same; the state holder becomes [Failed] with that message
    when it is not empty, and with the fallback ["Something went wrong"] when
    it is empty. *)
Theorem other_error_is_passed_through
        (e : PostgrestError.t) (emailData : EmailData.t)
        (email : string) (source : option string) (m : Machine)
        (Hcode : PostgrestError.code e <> "23505")
        (Hfresh : SignupState.success (signup m) = false) :
  fst (exec (answers (Resolved (Some e))) (EmailService.submitEmail emailData) m)
  = Returned (SignupResult.mk false (Some (PostgrestError.message e)))
  /\
  fst (exec (answers (Resolved (Some e)))
            (useEmailSignup.submitEmail email source) m)
  = Returned (SignupResult.mk false (Some (PostgrestError.message e)))
  /\
  phase (signup (snd (exec (answers (Resolved (Some e)))
                           (useEmailSignup.submitEmail email source) m)))
  = Some (Failed (if PostgrestError.message e =? ""
                  then "Something went wrong"
                  else PostgrestError.message e)).
Proof.
  apply String.eqb_neq in Hcode.
  cbn. rewrite Hcode. cbn. rewrite Hfresh. repeat split.
Qed.

Lemma other_error_is_passed_through_witness :
  PostgrestError.code permission_denied <> "23505" /\
  SignupState.success (signup mounted_machine) = false /\
  fst (exec (answers (Resolved (Some permission_denied)))
            (EmailService.submitEmail sample_emailData) mounted_machine)
  = Returned (SignupResult.mk false
                (Some "permission denied for table email_signups"))
  /\
  fst (exec (answers (Resolved (Some permission_denied)))
            (useEmailSignup.submitEmail "new@example.com" (Some "hero_form"))
            mounted_machine)
  = Returned (SignupResult.mk false
                (Some "permission denied for table email_signups"))
  /\
  phase (signup (snd (exec (answers (Resolved (Some permission_denied)))
                           (useEmailSignup.submitEmail "new@example.com"
                                                       (Some "hero_form"))
                           mounted_machine)))
  = Some (Failed "permission denied for table email_signups").
Proof.
  split; [discriminate|]. split; [reflexivity|].
  apply (other_error_is_passed_through
           permission_denied sample_emailData "new@example.com"
           (Some "hero_form") mounted_machine);
    [discriminate | reflexivity].
Defined.

(** C4 as stated fails when the collaborator's message is empty: the service
    returns the empty message, and the state holder stores the fallback, not
    the collaborator's message. *)
Lemma empty_message_is_replaced :
  PostgrestError.code silent_error <> "23505" /\
  fst (exec (answers (Resolved (Some silent_error)))
            (useEmailSignup.submitEmail "new@example.com" (Some "hero_form"))
            mounted_machine)
  = Returned (SignupResult.mk false (Some "")) /\
  phase (signup (snd (exec (answers (Resolved (Some silent_error)))
                           (useEmailSignup.submitEmail "new@example.com"
                                                       (Some "hero_form"))
                           mounted_machine)))
  = Some (Failed "Something went wrong") /\
  phase (signup (snd (exec (answers (Resolved (Some silent_error)))
                           (useEmailSignup.submitEmail "new@example.com"
                                                       (Some "hero_form"))
                           mounted_machine)))
  <> Some (Failed (PostgrestError.message silent_error)).
Proof.
  cbn. repeat split; discriminate.
Qed.

(** C9.  A result of [EmailService.submitEmail] with [success = true] carries
    no error message: [error] is present only when [success] is false. *)
Theorem error_only_on_failure
        (insert : Request -> Awaited InsertResult) (emailData : EmailData.t)
        (m m' : Machine) (r : SignupResult.t)
        (Hrun : exec insert (EmailService.submitEmail emailData) m = (Returned r, m'))
        (Hok : SignupResult.success r = true) :
  SignupResult.error r = None.
Proof.
  revert Hrun. cbn. destruct (insert _) as [[e|]|fault]; cbn.
  - destruct (PostgrestError.code e =? "23505"); cbn;
      intros H; inversion H; subst; discriminate.
  - intros H; inversion H; reflexivity.
  - intros H; inversion H; subst; discriminate.
Qed.

Lemma error_only_on_failure_witness :
  exec (answers (Resolved None)) (EmailService.submitEmail sample_emailData)
       mounted_machine
  = (Returned (SignupResult.mk true None),
     snd (exec (answers (Resolved None))
               (EmailService.submitEmail sample_emailData) mounted_machine)) /\
  SignupResult.success (SignupResult.mk true None) = true /\
  SignupResult.error (SignupResult.mk true None) = None.
Proof.
  split; [reflexivity|]. split; [reflexivity|].
  apply (error_only_on_failure
           (answers (Resolved None)) sample_emailData mounted_machine
           (snd (exec (answers (Resolved None))
                      (EmailService.submitEmail sample_emailData)
                      mounted_machine))
           (SignupResult.mk true None));
    reflexivity.
Defined.

(** C10.  [EmailService.submitEmail] is total at its interface: for every
    argument, every machine and every behaviour of the insert (resolving
    without error, resolving with an error, rejecting), the run ends by
    returning a [SignupResult]; it never ends by throwing. *)
Theorem submitEmail_never_throws
        (insert : Request -> Awaited InsertResult) (emailData : EmailData.t)
        (m : Machine) :
  exists (r : SignupResult.t) (m' : Machine),
    exec insert (EmailService.submitEmail emailData) m = (Returned r, m').
Proof.
  apply service_returns.
Qed.

(* ================================================================= *)
(** ** The rendered form as a transition system *)

(** Every submission that the form lets through finds [success] clear and
    nothing loading. *)
Lemma accepted_submission_is_fresh m :
  (formRendered m && negb (submitDisabled m)) = true ->
  SignupState.success (signup m) = false /\
  SignupState.isLoading (signup m) = false.
Proof.
  unfold formRendered, submitDisabled. intros H.
  apply andb_true_iff in H. destruct H as [Hs Hd].
  apply negb_true_iff in Hs. apply negb_true_iff, orb_false_iff in Hd.
  destruct Hd as [Hl _]. now split.
Qed.

Lemma onSubmit_suspends sf m :
  exists k m',
    run (onSubmit sf m) m = (Awaiting k, m') /\
    signup m' = SignupState.mk true (SignupState.success (signup m)) None /\
    settles k.
Proof.
  destruct sf; cbn; do 2 eexists;
    (split; [reflexivity|]); (split; [reflexivity|]);
    intros [[e|]|fault] m2; cbn;
    try destruct (PostgrestError.code e =? "23505"); cbn;
    destruct (SignupState.success (signup m)); cbn;
    eexists; (split; [reflexivity|]); (split; [reflexivity|]);
    solve [ left; reflexivity | right; eexists; reflexivity ].
Qed.

Lemma consistent_mount b : consistent (mount b).
Proof. cbn. split; [reflexivity | discriminate]. Qed.

Lemma consistent_idle_pending p :
  consistent p ->
  SignupState.isLoading (signup (machine p)) = false ->
  pending p = [].
Proof.
  unfold consistent. destruct (pending p) as [|k [|k2 l]]; intros H Hl.
  - reflexivity.
  - destruct H as [H _]. rewrite H in Hl. discriminate.
  - contradiction.
Qed.

Lemma consistent_success_pending p :
  consistent p ->
  SignupState.success (signup (machine p)) = true ->
  pending p = [] /\ signup (machine p) = SignupState.mk false true None.
Proof.
  unfold consistent. destruct (pending p) as [|k [|k2 l]]; intros H Hs.
  - split; [reflexivity|]. destruct H as [Hl He]. specialize (He Hs).
    destruct (signup (machine p)) as [l s e]; cbn in *; subst; reflexivity.
  - destruct H as [H _]. rewrite H in Hs. discriminate.
  - contradiction.
Qed.

Lemma consistent_step sf p ev : consistent p -> consistent (step sf p ev).
Proof.
  intros Hc. destruct ev as [s | | | i o]; unfold step.
  - destruct (formRendered (machine p)); [|exact Hc].
    unfold consistent in *. cbn. exact Hc.
  - destruct (formRendered (machine p) && negb (submitDisabled (machine p)))
      eqn:Hgo; [|exact Hc].
    apply andb_true_iff in Hgo. destruct Hgo as [Hform Hen].
    unfold formRendered in Hform. apply negb_true_iff in Hform.
    unfold submitDisabled in Hen. apply negb_true_iff, orb_false_iff in Hen.
    destruct Hen as [Hload _].
    rewrite (consistent_idle_pending p Hc Hload).
    destruct (onSubmit_suspends sf (machine p)) as (k & m' & Hrun & Hs & Hk).
    unfold dispatch. rewrite Hrun. unfold consistent. cbn.
    rewrite Hs, Hform. split; [reflexivity | exact Hk].
  - destruct (newSignupRendered sf (machine p)) eqn:Hr; [|exact Hc].
    destruct sf; [|discriminate]. cbn in Hr.
    destruct (consistent_success_pending p Hc Hr) as [Hp Hs].
    rewrite Hp. unfold consistent. cbn. rewrite Hs. cbn.
    split; [reflexivity | discriminate].
  - unfold consistent in Hc.
    destruct (pending p) as [|k [|k2 l]] eqn:Hp.
    + destruct i; cbn; unfold consistent; rewrite Hp; exact Hc.
    + destruct Hc as [Hs Hk]. destruct i as [|j].
      * cbn. destruct (Hk o (machine p)) as (m' & Hrun & _ & Hm').
        unfold dispatch. rewrite Hrun. unfold consistent. cbn.
        rewrite Hs in Hm'. cbn in Hm'.
        destruct Hm' as [Hm' | [msg Hm']]; rewrite Hm'; cbn;
          (split; [reflexivity|]); [reflexivity | discriminate].
      * cbn. destruct j; cbn; unfold consistent; rewrite Hp; split; assumption.
    + contradiction.
Qed.

Lemma reachable_consistent sf p : reachable sf p -> consistent p.
Proof.
  induction 1 as [b | p ev _ IH].
  - apply consistent_mount.
  - apply consistent_step, IH.
Qed.

Lemma reachable_play sf p evs : reachable sf p -> reachable sf (play sf p evs).
Proof.
  revert p. induction evs as [|ev evs IH]; intros p Hp; cbn.
  - exact Hp.
  - apply IH. now constructor.
Qed.

Lemma succeeded_step_fixed sf p ev :
  reachable sf p ->
  SignupState.success (signup (machine p)) = true ->
  ev <> ClickNewSignup ->
  step sf p ev = p.
Proof.
  intros Hreach Hok Hev.
  destruct (consistent_success_pending p (reachable_consistent sf p Hreach) Hok)
    as [Hp _].
  destruct ev as [s | | | i o]; unfold step, formRendered.
  - rewrite Hok. reflexivity.
  - rewrite Hok. reflexivity.
  - contradiction.
  - rewrite Hp. destruct i; reflexivity.
Qed.

Lemma phase_succeeded s :
  phase s = Some Succeeded -> s = SignupState.mk false true None.
Proof.
  destruct s as [[|] [|] [msg|]]; cbn; intros H; try discriminate; reflexivity.
Qed.

Lemma submitting_page_reachable : reachable HeroForm submitting_page.
Proof. apply reachable_play. constructor. Qed.

Lemma succeeded_page_reachable : reachable HeroForm succeeded_page.
Proof. apply reachable_play, submitting_page_reachable. Qed.

(** C5.  In every state that a mounted form reaches, at most one submission
    is awaiting the collaborator, and exactly one while the loading flag is
    set; while it is set (the holder is [Submitting]) the submit button is
    disabled, so a further submit of the form changes nothing: no request is
    sent and nothing more is awaited. *)
Theorem at_most_one_outstanding_submission
        (sf : Surface) (p : Page) (Hreach : reachable sf p) :
  List.length (pending p) <= 1 /\
  List.length (pending p) =
    (if SignupState.isLoading (signup (machine p)) then 1 else 0) /\
  (SignupState.isLoading (signup (machine p)) = true ->
   phase (signup (machine p)) = Some Submitting /\
   step sf p SubmitForm = p).
Proof.
  pose proof (reachable_consistent sf p Hreach) as Hc.
  unfold consistent in Hc.
  destruct (pending p) as [|k [|k2 l]] eqn:Hp; cbn.
  - destruct Hc as [Hl _]. rewrite Hl.
    split; [lia|]. split; [reflexivity|]. discriminate.
  - destruct Hc as [Hs _]. rewrite Hs. cbn.
    split; [lia|]. split; [reflexivity|]. intros _. split; [reflexivity|].
    unfold step, submitDisabled. rewrite Hs. cbn.
    now rewrite andb_false_r.
  - contradiction.
Qed.

Lemma at_most_one_outstanding_submission_witness :
  reachable HeroForm submitting_page /\
  SignupState.isLoading (signup (machine submitting_page)) = true /\
  List.length (pending submitting_page) = 1 /\
  List.length (sent (machine submitting_page)) = 1 /\
  step HeroForm submitting_page SubmitForm = submitting_page.
Proof.
  split; [exact submitting_page_reachable|].
  split; [reflexivity|].
  destruct (at_most_one_outstanding_submission
              HeroForm submitting_page submitting_page_reachable)
    as (_ & Hlen & Hgate).
  split; [exact Hlen|]. split; [reflexivity|].
  exact (proj2 (Hgate eq_refl)).
Defined.

(** C6.  [Succeeded] is terminal for an attempt.  From a reached state whose
    holder is [Succeeded], no sequence of events without a click on "Sign up
    another email" (which calls [resetState]) changes anything: the form is
    not rendered, so no submit transition occurs and no request is sent.  On
    the hero form that click returns the holder to [Idle]; the popup has no
    such button. *)
Theorem succeeded_is_terminal_until_reset
        (sf : Surface) (p : Page) (evs : list Event)
        (Hreach : reachable sf p)
        (Hok : phase (signup (machine p)) = Some Succeeded)
        (Hnoreset : ~ In ClickNewSignup evs) :
  play sf p evs = p /\
  step sf p SubmitForm = p /\
  match sf with
  | HeroForm => phase (signup (machine (step sf p ClickNewSignup))) = Some Idle
  | ExitIntentForm => step sf p ClickNewSignup = p
  end.
Proof.
  apply phase_succeeded in Hok.
  assert (Hs : SignupState.success (signup (machine p)) = true)
    by (rewrite Hok; reflexivity).
  split; [|split].
  - induction evs as [|ev evs IH]; cbn; [reflexivity|].
    rewrite (succeeded_step_fixed sf p ev Hreach Hs).
    + apply IH. intros Hin. apply Hnoreset. now right.
    + intros ->. apply Hnoreset. now left.
  - apply succeeded_step_fixed; [assumption | assumption | discriminate].
  - destruct sf; [|reflexivity].
    unfold step. cbn. rewrite Hs.
    unfold dispatch. cbn. rewrite Hok. reflexivity.
Qed.

Lemma succeeded_is_terminal_until_reset_witness :
  reachable HeroForm succeeded_page /\
  phase (signup (machine succeeded_page)) = Some Succeeded /\
  ~ In ClickNewSignup idle_events /\
  play HeroForm succeeded_page idle_events = succeeded_page /\
  step HeroForm succeeded_page SubmitForm = succeeded_page /\
  phase (signup (machine (step HeroForm succeeded_page ClickNewSignup))) = Some Idle.
Proof.
  assert (Hno : ~ In ClickNewSignup idle_events).
  { cbn. intros [H|[H|[H|[H|[]]]]]; discriminate. }
  split; [exact succeeded_page_reachable|].
  split; [reflexivity|].
  split; [exact Hno|].
  exact (succeeded_is_terminal_until_reset
           HeroForm succeeded_page idle_events succeeded_page_reachable
           eq_refl Hno).
Defined.

(** C7, as the code has it.  In every state of the holder, [resetState] runs
    to its end, clears [success] and the stored error message, and leaves the
    loading flag as it is; so from every state whose loading flag is clear
    ([Idle], [Succeeded], [Failed]) it returns the holder to [Idle]. *)
Theorem resetState_clears_success_and_error (m : Machine) :
  fst (run useEmailSignup.resetState m) = Completed (Returned tt) /\
  signup (snd (run useEmailSignup.resetState m)) =
    SignupState.mk (SignupState.isLoading (signup m)) false None /\
  (SignupState.isLoading (signup m) = false ->
   phase (signup (snd (run useEmailSignup.resetState m))) = Some Idle).
Proof.
  cbn. repeat split. intros ->. reflexivity.
Qed.

Lemma resetState_clears_success_and_error_witness :
  SignupState.isLoading (signup failed_machine) = false /\
  phase (signup failed_machine) = Some (Failed "Email already registered!") /\
  phase (signup (snd (run useEmailSignup.resetState failed_machine))) = Some Idle.
Proof.
  split; [reflexivity|]. split; [reflexivity|].
  apply (resetState_clears_success_and_error failed_machine).
  reflexivity.
Defined.

(** C7 as stated fails for [Submitting]: [resetState] does not touch the
    loading flag, so a holder that is [Submitting] stays [Submitting]. *)
Lemma reset_while_submitting_stays_submitting :
  phase (signup (machine submitting_page)) = Some Submitting /\
  phase (signup (snd (run useEmailSignup.resetState (machine submitting_page))))
  = Some Submitting /\
  phase (signup (snd (run useEmailSignup.resetState (machine submitting_page))))
  <> Some Idle.
Proof.
  cbn. repeat split. discriminate.
Qed.

(** C8.  In every state that a mounted form reaches, the loading flag and
    [success] are not both set; more, the three cells always stand for one of
    the four states of the state machine. *)
Theorem never_loading_and_success
        (sf : Surface) (p : Page) (Hreach : reachable sf p) :
  ~ (SignupState.isLoading (signup (machine p)) = true /\
     SignupState.success (signup (machine p)) = true) /\
  phase (signup (machine p)) <> None.
Proof.
  pose proof (reachable_consistent sf p Hreach) as Hc.
  unfold consistent in Hc.
  destruct (pending p) as [|k [|k2 l]].
  - destruct Hc as [Hl He].
    destruct (signup (machine p)) as [l s e]; cbn in *; subst. split.
    + intros [H _]. discriminate.
    + destruct s; [rewrite (He eq_refl) | destruct e]; discriminate.
  - destruct Hc as [Hs _]. rewrite Hs. cbn. split.
    + intros [_ H]. discriminate.
    + discriminate.
  - contradiction.
Qed.

Lemma never_loading_and_success_witness :
  reachable HeroForm succeeded_page /\
  ~ (SignupState.isLoading (signup (machine succeeded_page)) = true /\
     SignupState.success (signup (machine succeeded_page)) = true) /\
  phase (signup (machine succeeded_page)) <> None.
Proof.
  split; [exact succeeded_page_reachable|].
  exact (never_loading_and_success HeroForm succeeded_page succeeded_page_reachable).
Defined.

(** The guard of C8 is the form, not the hook: called on a holder that is
    [Succeeded], the hook's [submitEmail] sets the loading flag and leaves
    [success] set.  No handler of the page makes that call: the form is not
    rendered while [success] is set. *)
Remark submitEmail_does_not_clear_success :
  signup (snd (run (useEmailSignup.submitEmail "new@example.com" (Some "hero_form"))
                   (machine succeeded_page)))
  = SignupState.mk true true None.
Proof. reflexivity. Qed.

(* ================================================================= *)
(** ** More on the service and the hook *)

(** X1.  When the insert resolves without error, the hook returns
    [{success: true}] and the holder is [Succeeded] with the loading flag and
    the error cleared, whatever state the call started from. *)
Theorem successful_insert_succeeds
        (email : string) (source : option string) (m : Machine) :
  fst (exec (answers (Resolved None)) (useEmailSignup.submitEmail email source) m)
  = Returned (SignupResult.mk true None) /\
  signup (snd (exec (answers (Resolved None))
                    (useEmailSignup.submitEmail email source) m))
  = SignupState.mk false true None.
Proof.
  cbn. split; reflexivity.
Qed.

(** X2.  Whatever the collaborator does, the hook's [submitEmail] returns a
    result and leaves the loading flag clear; when the result is a failure the
    holder stores a message that is not empty, so the page has something to
    show. *)
Theorem failed_submission_stores_a_message
        (insert : Request -> Awaited InsertResult)
        (email : string) (source : option string) (m : Machine) :
  exists (r : SignupResult.t) (m' : Machine),
    exec insert (useEmailSignup.submitEmail email source) m = (Returned r, m') /\
    SignupState.isLoading (signup m') = false /\
    (SignupResult.success r = true ->
     signup m' = SignupState.mk false true None) /\
    (SignupResult.success r = false ->
     exists msg : string,
       SignupState.error (signup m') = Some msg /\ msg <> "").
Proof.
  cbn. destruct (insert _) as [[e|]|fault]; cbn.
  - destruct (PostgrestError.code e =? "23505"); cbn.
    + do 2 eexists. split; [reflexivity|]. split; [reflexivity|].
      split; [discriminate|]. intros _. eexists. split; [reflexivity|discriminate].
    + do 2 eexists. split; [reflexivity|]. split; [reflexivity|].
      split; [discriminate|]. intros _. eexists. split; [reflexivity|].
      destruct (PostgrestError.message e =? "") eqn:Hm.
      * discriminate.
      * now apply String.eqb_neq.
  - do 2 eexists. split; [reflexivity|]. split; [reflexivity|].
    split; [reflexivity|]. discriminate.
  - do 2 eexists. split; [reflexivity|]. split; [reflexivity|].
    split; [discriminate|]. intros _. eexists. split; [reflexivity|discriminate].
Qed.

(** X3.  [EmailService.submitEmail] sends exactly one request, one row into
    [email_signups], whatever the collaborator answers.  The row carries the
    email and the source of the argument, a [created_at] read from the clock,
    and the metadata of the argument when it is truthy; a metadata that is
    absent or falsy is sent as the empty object. *)
Theorem service_sends_one_row
        (insert : Request -> Awaited InsertResult)
        (emailData : EmailData.t) (m : Machine) :
  sent (snd (exec insert (EmailService.submitEmail emailData) m))
  = (sent m ++
     [ mkRequest "email_signups"
         [ Row.mk (EmailData.email emailData) (EmailData.source emailData)
                  (if truthy (EmailData.metadata emailData)
                   then EmailData.metadata emailData
                   else JObject [])
                  (clock (browser m) (dateReads m)) ] ])%list.
Proof.
  cbn. destruct (insert _) as [[e|]|fault]; cbn.
  - destruct (PostgrestError.code e =? "23505"); reflexivity.
  - reflexivity.
  - reflexivity.
Qed.

(* ================================================================= *)
(** ** More on the mounted form *)

Lemma machine_dispatch q m w : machine (dispatch q m w) = snd (run q m).
Proof. unfold dispatch. destruct (run q m) as [[c|k] m']; reflexivity. Qed.

Lemma onSubmit_issue sf m :
  SignupState.success (signup m) = false ->
  exists k m',
    run (onSubmit sf m) m = (Awaiting k, m') /\
    issued sf k /\
    signup m' = SignupState.mk true false None /\
    email m' = email m /\
    closeTimer m' = closeTimer m /\
    sent m' = (sent m ++ [form_request sf m])%list.
Proof.
  intros Hs.
  exists (match fst (run (onSubmit sf m) m) with
          | Awaiting k => k
          | Completed _ => fun _ => Ret tt
          end), (snd (run (onSubmit sf m) m)).
  split; [destruct sf; reflexivity|].
  split; [exists m; split; [exact Hs | destruct sf; reflexivity]|].
  destruct sf; cbn; rewrite Hs; repeat split.
Qed.

Lemma issued_resume sf k (o : Awaited InsertResult) (m : Machine) :
  issued sf k ->
  exists m',
    run (k o) m = (Completed (Returned tt), m') /\
    email m' = email m /\
    closeTimer m' = closeTimer m /\
    sent m' = sent m /\
    (SignupState.success (signup m) = false ->
     SignupState.error (signup m) = None ->
     phase (signup m') = Some (outcome_phase o)).
Proof.
  intros (m0 & Hs & Hk).
  destruct sf; cbn in Hk; rewrite Hs in Hk; injection Hk as <-;
    destruct o as [[e|]|fault]; cbn;
    try destruct (PostgrestError.code e =? "23505"); cbn;
    eexists; (split; [reflexivity|]); repeat split;
    intros H1 H2; cbn; rewrite ?H1, ?H2; reflexivity.
Qed.

Lemma Forall_remove_nth {A : Type} (P : A -> Prop) (i : nat) (l : list A) :
  Forall P l -> Forall P (remove_nth i l).
Proof.
  intros H. revert i. induction H as [|x l Hx Hl IH]; intros [|j]; cbn.
  - constructor.
  - constructor.
  - exact Hl.
  - constructor; [exact Hx | apply IH].
Qed.

Lemma gate_open m :
  (formRendered m && negb (submitDisabled m)) = true ->
  SignupState.success (signup m) = false /\ email m <> "".
Proof.
  unfold formRendered, submitDisabled. intros H.
  apply andb_true_iff in H. destruct H as [Hs Hd].
  apply negb_true_iff in Hs. apply negb_true_iff, orb_false_iff in Hd.
  destruct Hd as [_ He]. split; [exact Hs | now apply String.eqb_neq].
Qed.

(** What one event does to the machine of a form, apart from the holder. *)
Lemma step_effect sf p ev :
  Forall (issued sf) (pending p) ->
  Forall (issued sf) (pending (step sf p ev)) /\
  closeTimer (machine (step sf p ev)) = closeTimer (machine p) /\
  (sent (machine (step sf p ev)) = sent (machine p) \/
   ev = SubmitForm /\ email (machine p) <> "" /\
   sent (machine (step sf p ev))
   = (sent (machine p) ++ [form_request sf (machine p)])%list) /\
  (match ev with
   | SubmitForm | Settle _ _ => email (machine (step sf p ev)) = email (machine p)
   | _ => True
   end).
Proof.
  intros Hp. destruct ev as [s | | | i o]; unfold step.
  - destruct (formRendered (machine p)); cbn; auto.
  - destruct (formRendered (machine p) && negb (submitDisabled (machine p)))
      eqn:Hgo; [|auto].
    destruct (gate_open _ Hgo) as [Hs He].
    destruct (onSubmit_issue sf (machine p) Hs)
      as (k & m' & Hrun & Hk & _ & Hem & Hct & Hsent).
    unfold dispatch. rewrite Hrun. cbn.
    split; [apply Forall_app; split; [exact Hp | constructor; [exact Hk | constructor]]|].
    split; [exact Hct|]. split; [right; auto | exact Hem].
  - destruct (newSignupRendered sf (machine p)); cbn; auto.
  - destruct (nth_error (pending p) i) as [k|] eqn:Hn; [|auto].
    assert (Hk : issued sf k).
    { eapply Forall_forall; [exact Hp|]. eapply nth_error_In; exact Hn. }
    destruct (issued_resume sf k o (machine p) Hk)
      as (m' & Hrun & Hem & Hct & Hsent & _).
    unfold dispatch. rewrite Hrun. cbn.
    split; [now apply Forall_remove_nth|]. auto.
Qed.

Lemma sound_mount sf b : sound sf (mount b).
Proof.
  split; [apply consistent_mount|]. cbn. repeat split; constructor.
Qed.

Lemma sound_step sf p ev : sound sf p -> sound sf (step sf p ev).
Proof.
  intros (Hc & Hct & Hp & Hs).
  destruct (step_effect sf p ev Hp) as (Hp' & Hct' & Hsent & _).
  split; [now apply consistent_step|].
  split; [now rewrite Hct'|]. split; [exact Hp'|].
  destruct Hsent as [-> | (_ & He & ->)]; [exact Hs|].
  apply Forall_app. split; [exact Hs|].
  constructor; [|constructor].
  split; [reflexivity|]. do 3 eexists. split; [reflexivity | exact He].
Qed.

Lemma reachable_sound sf p : reachable sf p -> sound sf p.
Proof.
  induction 1 as [b | p ev _ IH].
  - apply sound_mount.
  - apply sound_step, IH.
Qed.

(** X4.  Whenever the submit handler of either form runs, it sends, before it
    awaits, exactly one request: one row into [email_signups] with the email
    of the render, the tag of the form, the metadata and a [created_at] from
    the clock.  It sets the loading flag and clears the stored error, leaves
    [success] and the email typed as they are, and leaves one more submission
    awaited. *)
Theorem submit_handler_sends_once
        (sf : Surface) (m : Machine)
        (waiting : list (Awaited InsertResult -> Proc unit)) :
  sent (machine (dispatch (onSubmit sf m) m waiting))
  = (sent m ++ [form_request sf m])%list /\
  signup (machine (dispatch (onSubmit sf m) m waiting))
  = SignupState.mk true (SignupState.success (signup m)) None /\
  email (machine (dispatch (onSubmit sf m) m waiting)) = email m /\
  List.length (pending (dispatch (onSubmit sf m) m waiting))
  = S (List.length waiting).
Proof.
  destruct sf; cbn; repeat split; rewrite length_app; cbn; lia.
Qed.

(** X5.  In a reached state whose holder is loading, the settling of the
    awaited insert ends the attempt: nothing is awaited any more, no request
    is sent, and the holder is [Succeeded] when the insert resolved without
    error, [Failed] with "Email already registered!" on code ['23505'],
    [Failed] with the collaborator's message (or the fallback when it is
    empty) on another error, and [Failed] with the generic message when the
    insert rejected. *)
Theorem settling_ends_the_attempt
        (sf : Surface) (p : Page) (o : Awaited InsertResult)
        (Hreach : reachable sf p)
        (Hload : SignupState.isLoading (signup (machine p)) = true) :
  pending (step sf p (Settle 0 o)) = [] /\
  sent (machine (step sf p (Settle 0 o))) = sent (machine p) /\
  phase (signup (machine (step sf p (Settle 0 o)))) = Some (outcome_phase o).
Proof.
  destruct (reachable_sound sf p Hreach) as (Hc & _ & Hp & _).
  unfold consistent in Hc.
  destruct (pending p) as [|k [|k2 l]] eqn:Hpd.
  - destruct Hc as [Hl _]. rewrite Hl in Hload. discriminate.
  - destruct Hc as [Hs _].
    assert (Hk : issued sf k) by (inversion Hp; assumption).
    destruct (issued_resume sf k o (machine p) Hk)
      as (m' & Hrun & _ & _ & Hsent & Hph).
    unfold step. rewrite Hpd. cbn. unfold dispatch. rewrite Hrun. cbn.
    split; [reflexivity|]. split; [exact Hsent|].
    apply Hph; rewrite Hs; reflexivity.
  - contradiction.
Qed.

Lemma settling_ends_the_attempt_witness :
  reachable HeroForm submitting_page /\
  SignupState.isLoading (signup (machine submitting_page)) = true /\
  pending (step HeroForm submitting_page
                (Settle 0 (Resolved (Some unique_violation)))) = [] /\
  sent (machine (step HeroForm submitting_page
                      (Settle 0 (Resolved (Some unique_violation)))))
  = sent (machine submitting_page) /\
  phase (signup (machine (step HeroForm submitting_page
                               (Settle 0 (Resolved (Some unique_violation))))))
  = Some (Failed "Email already registered!").
Proof.
  split; [exact submitting_page_reachable|]. split; [reflexivity|].
  exact (settling_ends_the_attempt
           HeroForm submitting_page (Resolved (Some unique_violation))
           submitting_page_reachable eq_refl).
Defined.

(** X6.  The follow-up of the submit handlers never runs.  Each handler tests,
    after the [await], the [success] of the render that created it, which is
    false whenever the form can be submitted: in every reached state of either
    form no close timer has been set, and neither a submit nor the settling of
    an insert changes the email typed. *)
Theorem success_follow_up_never_runs
        (sf : Surface) (p : Page) (Hreach : reachable sf p) :
  closeTimer (machine p) = None /\
  email (machine (step sf p SubmitForm)) = email (machine p) /\
  forall (i : nat) (o : Awaited InsertResult),
    email (machine (step sf p (Settle i o))) = email (machine p).
Proof.
  destruct (reachable_sound sf p Hreach) as (_ & Hct & Hp & _).
  split; [exact Hct|]. split.
  - exact (proj2 (proj2 (proj2 (step_effect sf p SubmitForm Hp)))).
  - intros i o. exact (proj2 (proj2 (proj2 (step_effect sf p (Settle i o) Hp)))).
Qed.

Lemma success_follow_up_never_runs_witness :
  reachable HeroForm succeeded_page /\
  closeTimer (machine succeeded_page) = None /\
  email (machine succeeded_page) = email (machine submitting_page).
Proof.
  split; [exact succeeded_page_reachable|].
  split.
  - exact (proj1 (success_follow_up_never_runs
                    HeroForm succeeded_page succeeded_page_reachable)).
  - exact (proj2 (proj2 (success_follow_up_never_runs
                           HeroForm submitting_page submitting_page_reachable))
                 0 (Resolved None)).
Defined.

(** X7.  Every request that a mounted form has sent is an insert of one row
    into [email_signups] that carries the tag of the form (["hero_form"] or
    ["exit_intent"]) and an email that is not empty. *)
Theorem requests_are_the_forms
        (sf : Surface) (p : Page) (Hreach : reachable sf p) :
  Forall (well_tagged sf) (sent (machine p)).
Proof.
  exact (proj2 (proj2 (proj2 (reachable_sound sf p Hreach)))).
Qed.

Lemma requests_are_the_forms_witness :
  reachable HeroForm succeeded_page /\
  Forall (well_tagged HeroForm) (sent (machine succeeded_page)).
Proof.
  split; [exact succeeded_page_reachable|].
  exact (requests_are_the_forms HeroForm succeeded_page succeeded_page_reachable).
Defined.

Lemma play_sent_bound sf evs : forall p,
  sound sf p ->
  List.length (sent (machine (play sf p evs)))
  <= List.length (sent (machine p)) + submits evs.
Proof.
  induction evs as [|ev evs IH]; intros p Hs.
  - cbn. lia.
  - change (play sf p (ev :: evs)) with (play sf (step sf p ev) evs).
    assert (Hsub : submits (ev :: evs)
                   = (match ev with SubmitForm => 1 | _ => 0 end) + submits evs)
      by (unfold submits; destruct ev; reflexivity).
    specialize (IH (step sf p ev) (sound_step sf p ev Hs)).
    destruct Hs as (_ & _ & Hp & _).
    destruct (step_effect sf p ev Hp) as (_ & _ & Hsent & _).
    destruct Hsent as [Hsame | (Hev & _ & Hmore)].
    + rewrite Hsame in IH. lia.
    + rewrite Hmore, length_app in IH. subst ev. cbn [List.length] in IH. lia.
Qed.

(** X8.  A form never sends a request on its own: after any sequence of
    events on a freshly mounted form, the number of requests sent is at most
    the number of submits in the sequence.  Nothing is retried, and the
    settling of an insert sends nothing. *)
Theorem no_request_without_submit
        (sf : Surface) (b : Browser) (evs : list Event) :
  List.length (sent (machine (play sf (mount b) evs))) <= submits evs.
Proof.
  pose proof (play_sent_bound sf evs (mount b) (sound_mount sf b)) as H.
  cbn in H. exact H.
Qed.

(* ================================================================= *)
(** ** The habit demo *)

Lemma totalStreak_from (hs : list Habit.t) : forall acc : Z,
  fold_left (fun sum h => (sum + Habit.streak h)%Z) hs acc
  = (acc + totalStreak hs)%Z.
Proof.
  unfold totalStreak.
  induction hs as [|h hs IH]; intros acc; cbn.
  - lia.
  - rewrite IH, (IH (Habit.streak h)). lia.
Qed.

Lemma totalStreak_cons h hs :
  totalStreak (h :: hs) = (Habit.streak h + totalStreak hs)%Z.
Proof.
  unfold totalStreak at 1. cbn. apply totalStreak_from.
Qed.

Lemma completedCount_cons h hs :
  Z.of_nat (completedCount (h :: hs))
  = ((if Habit.completed h then 1 else 0) + Z.of_nat (completedCount hs))%Z.
Proof.
  unfold completedCount. cbn. destruct (Habit.completed h); cbn [List.length]; lia.
Qed.

(** X9.  A click never adds, removes, reorders, renames or re-identifies a
    habit: the ids, names and icons of the list are those of the list before,
    in the same order. *)
Theorem toggleHabit_keeps_the_list (id : Z) (hs : list Habit.t) :
  map Habit.id (toggleHabit id hs) = map Habit.id hs /\
  map Habit.name (toggleHabit id hs) = map Habit.name hs /\
  map Habit.icon (toggleHabit id hs) = map Habit.icon hs.
Proof.
  unfold toggleHabit. rewrite !map_map.
  repeat split; apply map_ext; intros h;
    destruct (Habit.id h =? id)%Z; reflexivity.
Qed.

(** X10.  A toggle of an id that no habit has leaves the list as it is. *)
Theorem toggleHabit_unknown_id (id : Z) (hs : list Habit.t)
        (Hnew : ~ In id (map Habit.id hs)) :
  toggleHabit id hs = hs.
Proof.
  induction hs as [|h hs IH]; cbn; [reflexivity|].
  cbn in Hnew.
  destruct (Habit.id h =? id)%Z eqn:He.
  - apply Z.eqb_eq in He. exfalso. apply Hnew. now left.
  - f_equal. apply IH. intros Hin. apply Hnew. now right.
Qed.

Lemma toggleHabit_unknown_id_witness :
  ~ In 7%Z (map Habit.id initialHabits) /\
  toggleHabit 7 initialHabits = initialHabits.
Proof.
  assert (H : ~ In 7%Z (map Habit.id initialHabits)).
  { cbn. intros [H|[H|[H|[H|[]]]]]; discriminate. }
  split; [exact H|]. exact (toggleHabit_unknown_id 7 initialHabits H).
Defined.

Lemma sane_toggle id hs : Forall sane hs -> Forall sane (toggleHabit id hs).
Proof.
  unfold toggleHabit. intros H. apply Forall_map.
  eapply Forall_impl; [|exact H]. intros h [H0 H1].
  destruct (Habit.id h =? id)%Z; [|split; assumption].
  unfold sane. cbn.
  destruct (Habit.completed h); cbn; split; try lia; discriminate.
Qed.

(** X11.  The demo keeps its habits sane: from a list in which no streak is
    negative and every completed habit has a streak of at least one, any
    sequence of clicks leads to such a list.  The four habits the demo starts
    with are such a list. *)
Theorem habits_stay_sane (ids : list Z) (hs : list Habit.t)
        (Hsane : Forall sane hs) :
  Forall sane (clicks ids hs).
Proof.
  revert hs Hsane. unfold clicks.
  induction ids as [|id ids IH]; intros hs Hs; cbn.
  - exact Hs.
  - apply IH, sane_toggle, Hs.
Qed.

Lemma initialHabits_sane : Forall sane initialHabits.
Proof.
  unfold initialHabits, sane.
  repeat constructor; cbn; try lia; discriminate.
Qed.

Lemma habits_stay_sane_witness :
  Forall sane initialHabits /\
  Forall sane (clicks [1; 1; 2; 4; 9; 2]%Z initialHabits).
Proof.
  split; [exact initialHabits_sane|].
  exact (habits_stay_sane [1; 1; 2; 4; 9; 2]%Z initialHabits initialHabits_sane).
Defined.

Lemma initialHabits_exact : exact_habits initialHabits.
Proof.
  split; [exact initialHabits_sane|]. cbn. unfold MAX_SAFE_INTEGER. lia.
Qed.

(** X12.  On a list on which the arithmetic is exact (sane habits, streaks
    within the safe integers) a second click undoes the first: toggling the
    same id twice gives the list back, streaks included. *)
Theorem double_click_restores (id : Z) (hs : list Habit.t)
        (Hexact : exact_habits hs) :
  toggleHabit id (toggleHabit id hs) = hs.
Proof.
  destruct Hexact as [Hsane _].
  induction Hsane as [|h hs [H0 H1] _ IH]; cbn; [reflexivity|].
  f_equal; [|exact IH].
  destruct (Habit.id h =? id)%Z eqn:He; cbn; rewrite He; [|reflexivity].
  destruct h as [i n c s ic]; cbn in *.
  destruct c; cbn; f_equal.
  - specialize (H1 eq_refl). lia.
  - lia.
Qed.

Lemma double_click_restores_witness :
  exact_habits initialHabits /\
  toggleHabit 2 (toggleHabit 2 initialHabits) = initialHabits.
Proof.
  split; [exact initialHabits_exact|].
  exact (double_click_restores 2 initialHabits initialHabits_exact).
Defined.

(** Without sanity the second click does not undo the first: a completed
    habit with no streak comes back with a streak of one. *)
Remark double_click_on_hollow_habit :
  map Habit.streak (toggleHabit 9 (toggleHabit 9 [hollow_habit])) = [1%Z].
Proof. reflexivity. Qed.

(** X13.  In a list with distinct ids on which the arithmetic is exact, a
    click on a habit moves the number of completed habits and the total of
    the streaks together: both go up by one when the habit was not completed,
    both go down by one when it was. *)
Theorem click_moves_count_and_total (h : Habit.t) (hs : list Habit.t)
        (Hids : NoDup (map Habit.id hs))
        (Hin : In h hs)
        (Hexact : exact_habits hs) :
  totalStreak (toggleHabit (Habit.id h) hs)
  = (totalStreak hs + (if Habit.completed h then -1 else 1))%Z /\
  Z.of_nat (completedCount (toggleHabit (Habit.id h) hs))
  = (Z.of_nat (completedCount hs) + (if Habit.completed h then -1 else 1))%Z.
Proof.
  destruct Hexact as [Hall _].
  destruct (proj1 (Forall_forall sane hs) Hall h Hin) as [H0 H1].
  clear Hall.
  induction hs as [|g hs IH]; [contradiction|].
  cbn in Hids. inversion Hids as [|x l Hnot Hrest]; subst.
  destruct Hin as [-> | Hin].
  - change (toggleHabit (Habit.id h) (h :: hs))
      with ((if (Habit.id h =? Habit.id h)%Z
             then Habit.mk (Habit.id h) (Habit.name h) (negb (Habit.completed h))
                           (if negb (Habit.completed h)
                            then (Habit.streak h + 1)%Z
                            else Z.max 0 (Habit.streak h - 1))
                           (Habit.icon h)
             else h) :: toggleHabit (Habit.id h) hs).
    rewrite Z.eqb_refl, (toggleHabit_unknown_id _ _ Hnot).
    rewrite !totalStreak_cons, !completedCount_cons. cbn.
    destruct (Habit.completed h); cbn [negb]; [specialize (H1 eq_refl)|]; lia.
  - assert (Hne : (Habit.id g =? Habit.id h)%Z = false).
    { apply Z.eqb_neq. intros He. apply Hnot. rewrite He.
      now apply in_map. }
    change (toggleHabit (Habit.id h) (g :: hs))
      with ((if (Habit.id g =? Habit.id h)%Z
             then Habit.mk (Habit.id g) (Habit.name g) (negb (Habit.completed g))
                           (if negb (Habit.completed g)
                            then (Habit.streak g + 1)%Z
                            else Z.max 0 (Habit.streak g - 1))
                           (Habit.icon g)
             else g) :: toggleHabit (Habit.id h) hs).
    rewrite Hne, !totalStreak_cons, !completedCount_cons.
    destruct (IH Hrest Hin) as [-> ->]. lia.
Qed.

Lemma click_moves_count_and_total_witness :
  NoDup (map Habit.id initialHabits) /\
  In reading initialHabits /\
  exact_habits initialHabits /\
  totalStreak (toggleHabit (Habit.id reading) initialHabits) = 26%Z /\
  Z.of_nat (completedCount (toggleHabit (Habit.id reading) initialHabits)) = 1%Z.
Proof.
  assert (Hids : NoDup (map Habit.id initialHabits)).
  { cbn. repeat constructor; cbn; intuition discriminate. }
  assert (Hin : In reading initialHabits) by (right; left; reflexivity).
  split; [exact Hids|]. split; [exact Hin|]. split; [exact initialHabits_exact|].
  exact (click_moves_count_and_total reading initialHabits Hids Hin
                                     initialHabits_exact).
Defined.

(** X14.  On a list on which the arithmetic is exact, whatever the ids, a
    click leaves the total of the streaks minus the number of completed habits
    unchanged: a habit counts one more day exactly while it is checked. *)
Theorem streak_balance (id : Z) (hs : list Habit.t)
        (Hexact : exact_habits hs) :
  (totalStreak (toggleHabit id hs) - Z.of_nat (completedCount (toggleHabit id hs))
   = totalStreak hs - Z.of_nat (completedCount hs))%Z.
Proof.
  destruct Hexact as [Hsane _].
  induction Hsane as [|h hs [H0 H1] _ IH]; [reflexivity|].
  change (toggleHabit id (h :: hs))
    with ((if (Habit.id h =? id)%Z
           then Habit.mk (Habit.id h) (Habit.name h) (negb (Habit.completed h))
                         (if negb (Habit.completed h)
                          then (Habit.streak h + 1)%Z
                          else Z.max 0 (Habit.streak h - 1))
                         (Habit.icon h)
           else h) :: toggleHabit id hs).
  rewrite !totalStreak_cons, !completedCount_cons.
  destruct (Habit.id h =? id)%Z; [|lia].
  cbn. destruct (Habit.completed h); cbn [negb]; [specialize (H1 eq_refl)|]; lia.
Qed.

Lemma streak_balance_witness :
  exact_habits initialHabits /\
  (totalStreak (toggleHabit 3 initialHabits)
   - Z.of_nat (completedCount (toggleHabit 3 initialHabits))
   = totalStreak initialHabits - Z.of_nat (completedCount initialHabits))%Z.
Proof.
  split; [exact initialHabits_exact|].
  exact (streak_balance 3 initialHabits initialHabits_exact).
Defined.

(* ================================================================= *)
(** ** The heatmap palette *)

(** X15.  [getLevelColor] always answers with a colour of the palette, and a
    level outside 0..4 gets the colour of level 0. *)
Theorem getLevelColor_falls_back (level : Z) :
  In (getLevelColor level) colors /\
  ((level < 0 \/ 4 < level)%Z -> getLevelColor level = "#1e293b").
Proof.
  unfold getLevelColor, at_index.
  destruct (level <? 0)%Z eqn:Hneg.
  - cbn. split; [now left | reflexivity].
  - apply Z.ltb_ge in Hneg.
    destruct (Z_le_gt_dec level 4) as [Hle | Hgt].
    + assert (Hcases : (level = 0 \/ level = 1 \/ level = 2 \/ level = 3 \/ level = 4)%Z)
        by lia.
      destruct Hcases as [-> | [-> | [-> | [-> | ->]]]]; cbn;
        (split; [intuition | lia]).
    + assert (Hnone : nth_error colors (Z.to_nat level) = None).
      { apply nth_error_None. cbn. lia. }
      rewrite Hnone. cbn. split; [now left | reflexivity].
Qed.

Lemma getLevelColor_falls_back_witness :
  (7 < 0 \/ 4 < 7)%Z /\ getLevelColor 7 = "#1e293b" /\ getLevelColor (-1) = "#1e293b".
Proof.
  split; [right; lia|]. split.
  - apply (proj2 (getLevelColor_falls_back 7)). right. lia.
  - apply (proj2 (getLevelColor_falls_back (-1))). left. lia.
Defined.

(** X16.  The five levels 0..4 have five different colours: two levels of the
    legend with the same colour are the same level. *)
Theorem level_colors_distinct (a b : Z)
        (Ha : (0 <= a <= 4)%Z) (Hb : (0 <= b <= 4)%Z)
        (Hsame : getLevelColor a = getLevelColor b) :
  a = b.
Proof.
  assert (Hca : (a = 0 \/ a = 1 \/ a = 2 \/ a = 3 \/ a = 4)%Z) by lia.
  assert (Hcb : (b = 0 \/ b = 1 \/ b = 2 \/ b = 3 \/ b = 4)%Z) by lia.
  destruct Hca as [-> | [-> | [-> | [-> | ->]]]];
    destruct Hcb as [-> | [-> | [-> | [-> | ->]]]];
    try reflexivity; cbn in Hsame; discriminate.
Qed.

Lemma level_colors_distinct_witness :
  (0 <= 3 <= 4)%Z /\ getLevelColor 3 = getLevelColor 3 /\ 3%Z = 3%Z.
Proof.
  split; [lia|]. split; [reflexivity|].
  apply (level_colors_distinct 3 3); [lia | lia | reflexivity].
Defined.

(* ================================================================= *)
(** ** The signup counter *)

Lemma fired_cons d ds :
  fired (d :: ds) = (if fires d then 1 else 0) + fired ds.
Proof. unfold fired. cbn. destruct (fires d); reflexivity. Qed.

(** X17.  The founding-member counter is capped: from a safe integer of at
    most 500 (it starts at 247), after any sequence of interval ticks it is
    the starting value plus the number of ticks that fired, cut at 500; so it
    never exceeds 500 and never goes down. *)
Theorem founding_members_capped (ds : list Draw) (c : Counter)
        (Hsafe : (- MAX_SAFE_INTEGER <= foundingMembers c)%Z)
        (Hcap : (foundingMembers c <= 500)%Z) :
  foundingMembers (ticks ds c)
  = Z.min (foundingMembers c + Z.of_nat (fired ds)) 500 /\
  (foundingMembers c <= foundingMembers (ticks ds c) <= 500)%Z.
Proof.
  (* the lower bound delimits where [prev + 1] is exact in the source; on
     [Z] only the cap is needed *)
  clear Hsafe. revert c Hcap. unfold ticks.
  induction ds as [|d ds IH]; intros c Hcap.
  - cbn. lia.
  - change (fold_left interval_tick (d :: ds) c)
      with (fold_left interval_tick ds (interval_tick c d)).
    rewrite fired_cons.
    assert (Hstep : (foundingMembers (interval_tick c d)
                     = Z.min (foundingMembers c + (if fires d then 1 else 0)) 500)%Z).
    { unfold interval_tick. destruct (fires d); cbn; lia. }
    assert (Hcap' : (foundingMembers (interval_tick c d) <= 500)%Z) by lia.
    destruct (IH _ Hcap') as [IHeq IHle].
    rewrite IHeq, Hstep. destruct (fires d); lia.
Qed.

Lemma founding_members_capped_witness :
  (- MAX_SAFE_INTEGER <= foundingMembers counter_mount)%Z /\
  (foundingMembers counter_mount <= 500)%Z /\
  foundingMembers (ticks sample_draws counter_mount) = 249%Z.
Proof.
  assert (H1 : (- MAX_SAFE_INTEGER <= foundingMembers counter_mount)%Z)
    by (unfold MAX_SAFE_INTEGER; cbn; lia).
  assert (H2 : (foundingMembers counter_mount <= 500)%Z) by (cbn; lia).
  split; [exact H1|]. split; [exact H2|].
  exact (proj1 (founding_members_capped sample_draws counter_mount H1 H2)).
Defined.

Lemma raised_fired ds : (Z.of_nat (fired ds) <= raised ds)%Z.
Proof.
  induction ds as [|d ds IH]; [cbn; lia|].
  rewrite fired_cons. cbn [raised fold_right]. fold (raised ds).
  destruct (fires d); lia.
Qed.

(** X18.  While the total stays a safe integer, it is the starting value plus
    [extra + 1] for every tick that fired: it only grows, by at least one per
    firing tick, also once the founding-member counter has reached its cap;
    and a sequence of ticks none of which fires changes neither counter. *)
Theorem total_signups_grow (ds : list Draw) (c : Counter)
        (Hlow : (- MAX_SAFE_INTEGER <= totalSignups c)%Z)
        (Hhigh : (totalSignups c + raised ds <= MAX_SAFE_INTEGER)%Z) :
  totalSignups (ticks ds c) = (totalSignups c + raised ds)%Z /\
  (totalSignups c + Z.of_nat (fired ds) <= totalSignups (ticks ds c))%Z /\
  (fired ds = 0 -> ticks ds c = c).
Proof.
  (* the bounds delimit where the additions of the source are exact; on [Z]
     the equations hold without them *)
  clear Hlow Hhigh.
  assert (Heq : forall c0, totalSignups (ticks ds c0) = (totalSignups c0 + raised ds)%Z).
  { unfold ticks. induction ds as [|d ds IH]; intros c0.
    - cbn. lia.
    - change (fold_left interval_tick (d :: ds) c0)
        with (fold_left interval_tick ds (interval_tick c0 d)).
      rewrite IH. cbn [raised fold_right]. fold (raised ds).
      unfold interval_tick. destruct (fires d); cbn; lia. }
  split; [apply Heq|]. split.
  - rewrite Heq. pose proof (raised_fired ds). lia.
  - clear Heq. revert c. unfold ticks.
    induction ds as [|d ds IH]; intros c Hnone.
    + reflexivity.
    + change (fold_left interval_tick (d :: ds) c)
        with (fold_left interval_tick ds (interval_tick c d)).
      rewrite fired_cons in Hnone.
      unfold interval_tick at 2. destruct (fires d); [discriminate|].
      apply IH. exact Hnone.
Qed.

Lemma total_signups_grow_witness :
  (- MAX_SAFE_INTEGER <= totalSignups counter_mount)%Z /\
  (totalSignups counter_mount + raised sample_draws <= MAX_SAFE_INTEGER)%Z /\
  totalSignups (ticks sample_draws counter_mount) = 1251%Z.
Proof.
  assert (H1 : (- MAX_SAFE_INTEGER <= totalSignups counter_mount)%Z)
    by (unfold MAX_SAFE_INTEGER; cbn; lia).
  assert (H2 : (totalSignups counter_mount + raised sample_draws
                <= MAX_SAFE_INTEGER)%Z)
    by (unfold MAX_SAFE_INTEGER; cbn; lia).
  split; [exact H1|]. split; [exact H2|].
  exact (proj1 (total_signups_grow sample_draws counter_mount H1 H2)).
Defined.

(* ================================================================= *)
(** ** The exit-intent popup *)

Lemma exit_play_seen_and_closed st evs :
  hasSeenExitPopup st = true ->
  showExitPopup st = false ->
  exit_play evs st = st.
Proof.
  intros Hseen Hshow. unfold exit_play.
  induction evs as [|ev evs IH]; cbn; [reflexivity|].
  assert (Hfix : exit_step st ev = st).
  { destruct ev as [y s|]; cbn.
    - unfold handleMouseLeave. rewrite Hseen.
      now rewrite andb_false_r.
    - unfold onClose. destruct st as [sh se]; cbn in *. now subst. }
  rewrite Hfix. exact IH.
Qed.

Lemma exit_play_shown_is_seen evs :
  showExitPopup (exit_play evs exit_mount) = true ->
  hasSeenExitPopup (exit_play evs exit_mount) = true.
Proof.
  unfold exit_play.
  assert (H : forall st,
             (showExitPopup st = true -> hasSeenExitPopup st = true) ->
             showExitPopup (fold_left exit_step evs st) = true ->
             hasSeenExitPopup (fold_left exit_step evs st) = true).
  { induction evs as [|ev evs IH]; intros st Hst; cbn; [exact Hst|].
    apply IH. destruct ev as [y s|]; cbn.
    - unfold handleMouseLeave.
      destruct ((y <=? 0)%Z && negb (hasSeenExitPopup st) && negb s);
        [reflexivity | exact Hst].
    - discriminate. }
  apply H. discriminate.
Qed.

(** X19.  The exit-intent popup is shown at most once in the life of the page:
    once it has been shown and closed, no later mouse-leave opens it again,
    whatever the pointer position and the state of the hero form. *)
Theorem exit_popup_shows_once (before after : list ExitEvent)
        (Hshown : showExitPopup (exit_play before exit_mount) = true) :
  showExitPopup (exit_play (before ++ ClosePopup :: after) exit_mount) = false
  /\ hasSeenExitPopup (exit_play (before ++ ClosePopup :: after) exit_mount) = true.
Proof.
  pose proof (exit_play_shown_is_seen before Hshown) as Hseen.
  unfold exit_play in *. rewrite fold_left_app. cbn.
  fold (exit_play after (onClose (fold_left exit_step before exit_mount))).
  rewrite exit_play_seen_and_closed; cbn; auto.
Qed.

Lemma exit_popup_shows_once_witness :
  showExitPopup (exit_play [MouseLeave 5 false; MouseLeave 0 false] exit_mount) = true /\
  showExitPopup
    (exit_play ([MouseLeave 5 false; MouseLeave 0 false]
                  ++ ClosePopup :: [MouseLeave 0 false; MouseLeave (-3) false])
               exit_mount) = false.
Proof.
  split; [reflexivity|].
  exact (proj1 (exit_popup_shows_once
                  [MouseLeave 5 false; MouseLeave 0 false]
                  [MouseLeave 0 false; MouseLeave (-3) false] eq_refl)).
Defined.
